(** * Lock entity: state derivation, code-format cache and code resolution

    A shallow embedding of [homeassistant/components/lock/__init__.py]:
    the [LockEntity] base class, its derived [state], the one-entry cache of
    the compiled [code_format], the code resolution of the lock / unlock /
    open services and the loading of the default code from the entity
    registry, followed by the properties proved about them. *)

From Stdlib Require Import String Ascii ZArith Bool List.
From stdpp Require Import base option strings gmap.

Import ListNotations.
Local Open Scope string_scope.

(** ** Constants *)

(** Modelled from the spec: the string constants imported from
    [homeassistant.const], which is not part of the sources at hand.  The
    spec names the state values (locked, unlocked, locking, unlocking,
    jammed), the [code] field of a command and the [code_format]
    attribute. *)
Definition ATTR_CODE : string := "code".
Definition ATTR_CODE_FORMAT : string := "code_format".
Definition STATE_JAMMED : string := "jammed".
Definition STATE_LOCKED : string := "locked".
Definition STATE_LOCKING : string := "locking".
Definition STATE_UNLOCKED : string := "unlocked".
Definition STATE_UNLOCKING : string := "unlocking".

Definition ATTR_CHANGED_BY : string := "changed_by".
Definition CONF_DEFAULT_CODE : string := "default_code".
Definition DOMAIN : string := "lock".

(** [PROP_TO_ATTR], as the list of its items in insertion order. *)
Definition PROP_TO_ATTR : list (string * string) :=
  [("changed_by", ATTR_CHANGED_BY); ("code_format", ATTR_CODE_FORMAT)].

(** Modelled from the spec: the keys of the implicit target-entity selector
    of a service call ([cv.ENTITY_SERVICE_FIELDS] of the host platform). *)
Definition ENTITY_SERVICE_FIELDS : list string :=
  ["entity_id"; "device_id"; "area_id"].

(** ** Python values *)

(** Truth value of a [bool | None]: only [True] is truthy. *)
Definition truthy (b : option bool) : bool :=
  match b with
  | Some true => true
  | _ => false
  end.

(** Truth value of a [str]: every string but the empty one. *)
Definition truthy_str (s : string) : bool := negb (String.eqb s "").

(** What an f-string prints for a [str | None]. *)
Definition format_opt (o : option string) : string := default "None" o.

(** A compiled regular expression, [re.Pattern].  Patterns are compiled
    without flags, so a compiled pattern is determined by its source. *)
Record Pattern : Type := mkPattern { pattern : string }.

(** The regular-expression engine of the Python library.  [re_valid p]
    tells whether the expression [p] is well formed, that is whether
    [re.compile(p)] returns a pattern and does not raise [re.error].
    [re_match p s] tells whether the expression [p] matches at the start of
    [s], that is whether [re.compile(p).match(s)] is a match object and not
    [None]; only an expression that compiles has a match. *)
Class RegexEngine : Type := {
  re_valid : string -> bool;
  re_match : string -> string -> bool;
  re_match_valid : forall p s, re_match p s = true -> re_valid p = true
}.

(** The characters with a special meaning in an expression. *)
Definition is_special (c : ascii) : bool :=
  existsb (Ascii.eqb c) (list_ascii_of_string ".^$*+?{}[]\|()").

(** A small engine for the sample entities.  It knows the expressions
    without special characters, each of which matches the strings it is a
    prefix of, and takes every other expression as malformed, which is what
    Python does with the lone opening parenthesis of the samples. *)
Definition literal_regex : RegexEngine :=
  {| re_valid := fun p => forallb (fun c => negb (is_special c))
                            (list_ascii_of_string p);
     re_match := fun p s =>
       forallb (fun c => negb (is_special c)) (list_ascii_of_string p)
       && String.prefix p s;
     re_match_valid := fun p s H => proj1 (andb_prop _ _ H) |}.

(** ** The entity *)

(** A registry entry: its options, per domain, as string-keyed mappings. *)
Record RegistryEntry : Type := mkRegistryEntry {
  options : gmap string (gmap string string)
}.

(** The attributes of a [LockEntity] instance.  The private
    [__code_format_cmp] has its mangled name here. *)
Record LockEntity : Type := mkLockEntity {
  entity_id : string;
  registry_entry : option RegistryEntry;
  _attr_changed_by : option string;
  _attr_code_format : option string;
  _attr_is_locked : option bool;
  _attr_is_locking : option bool;
  _attr_is_unlocking : option bool;
  _attr_is_jammed : option bool;
  _attr_supported_features : Z;
  _lock_option_default_code : string;
  _LockEntity__code_format_cmp : option Pattern
}.

(** The class defaults: every attribute [None], no feature, an empty
    default code and nothing compiled. *)
Definition new_LockEntity (eid : string) (entry : option RegistryEntry)
  : LockEntity :=
  {| entity_id := eid;
     registry_entry := entry;
     _attr_changed_by := None;
     _attr_code_format := None;
     _attr_is_locked := None;
     _attr_is_locking := None;
     _attr_is_unlocking := None;
     _attr_is_jammed := None;
     _attr_supported_features := 0%Z;
     _lock_option_default_code := "";
     _LockEntity__code_format_cmp := None |}.

(** [self.__code_format_cmp = p] *)
Definition set_code_format_cmp (p : option Pattern) (e : LockEntity)
  : LockEntity :=
  {| entity_id := entity_id e;
     registry_entry := registry_entry e;
     _attr_changed_by := _attr_changed_by e;
     _attr_code_format := _attr_code_format e;
     _attr_is_locked := _attr_is_locked e;
     _attr_is_locking := _attr_is_locking e;
     _attr_is_unlocking := _attr_is_unlocking e;
     _attr_is_jammed := _attr_is_jammed e;
     _attr_supported_features := _attr_supported_features e;
     _lock_option_default_code := _lock_option_default_code e;
     _LockEntity__code_format_cmp := p |}.

(** [self._lock_option_default_code = c] *)
Definition set_lock_option_default_code (c : string) (e : LockEntity)
  : LockEntity :=
  {| entity_id := entity_id e;
     registry_entry := registry_entry e;
     _attr_changed_by := _attr_changed_by e;
     _attr_code_format := _attr_code_format e;
     _attr_is_locked := _attr_is_locked e;
     _attr_is_locking := _attr_is_locking e;
     _attr_is_unlocking := _attr_is_unlocking e;
     _attr_is_jammed := _attr_is_jammed e;
     _attr_supported_features := _attr_supported_features e;
     _lock_option_default_code := c;
     _LockEntity__code_format_cmp := _LockEntity__code_format_cmp e |}.

(** The registry replaces the entry of the entity. *)
Definition set_registry_entry (r : option RegistryEntry) (e : LockEntity)
  : LockEntity :=
  {| entity_id := entity_id e;
     registry_entry := r;
     _attr_changed_by := _attr_changed_by e;
     _attr_code_format := _attr_code_format e;
     _attr_is_locked := _attr_is_locked e;
     _attr_is_locking := _attr_is_locking e;
     _attr_is_unlocking := _attr_is_unlocking e;
     _attr_is_jammed := _attr_is_jammed e;
     _attr_supported_features := _attr_supported_features e;
     _lock_option_default_code := _lock_option_default_code e;
     _LockEntity__code_format_cmp := _LockEntity__code_format_cmp e |}.

(** An integration sets the expression its codes must match. *)
Definition set_attr_code_format (f : option string) (e : LockEntity)
  : LockEntity :=
  {| entity_id := entity_id e;
     registry_entry := registry_entry e;
     _attr_changed_by := _attr_changed_by e;
     _attr_code_format := f;
     _attr_is_locked := _attr_is_locked e;
     _attr_is_locking := _attr_is_locking e;
     _attr_is_unlocking := _attr_is_unlocking e;
     _attr_is_jammed := _attr_is_jammed e;
     _attr_supported_features := _attr_supported_features e;
     _lock_option_default_code := _lock_option_default_code e;
     _LockEntity__code_format_cmp := _LockEntity__code_format_cmp e |}.

(** The read-only properties of the base class. *)
Definition changed_by (e : LockEntity) : option string := _attr_changed_by e.
Definition code_format (e : LockEntity) : option string := _attr_code_format e.
Definition is_locked (e : LockEntity) : option bool := _attr_is_locked e.
Definition is_locking (e : LockEntity) : option bool := _attr_is_locking e.
Definition is_unlocking (e : LockEntity) : option bool := _attr_is_unlocking e.
Definition is_jammed (e : LockEntity) : option bool := _attr_is_jammed e.
Definition supported_features (e : LockEntity) : Z := _attr_supported_features e.

(** [LockEntity.state] *)
Definition state (e : LockEntity) : option string :=
  if truthy (is_jammed e) then Some STATE_JAMMED
  else if truthy (is_locking e) then Some STATE_LOCKING
  else if truthy (is_unlocking e) then Some STATE_UNLOCKING
  else match is_locked e with
       | None => None
       | Some locked => Some (if locked then STATE_LOCKED else STATE_UNLOCKED)
       end.

(** [getattr(self, prop)] for the properties listed in [PROP_TO_ATTR]. *)
Definition getattr (e : LockEntity) (prop : string) : option string :=
  if String.eqb prop "changed_by" then changed_by e
  else if String.eqb prop "code_format" then code_format e
  else None.

(** [LockEntity.state_attributes] *)
Definition state_attributes (e : LockEntity) : gmap string string :=
  fold_left
    (fun state_attr '(prop, attr) =>
       match getattr e prop with
       | Some value => <[attr := value]> state_attr
       | None => state_attr
       end)
    PROP_TO_ATTR ∅.

(** ** Effects *)

(** The exceptions the module can raise; [ReError] is the [re.error] of
    the Python library. *)
Inductive exn : Type :=
| ValueError (msg : string)
| AssertionError
| AttributeError
| NotImplementedError
| ReError.

Inductive result (A : Type) : Type :=
| Ok (a : A)
| Raise (e : exn).
Arguments Ok {A} a.
Arguments Raise {A} e.

(** The operations of the device a command ends in. *)
Inductive DeviceOp : Type := OpLock | OpUnlock | OpOpen.

(** What the code can change: the entity it runs on, and two traces of its
    calls into its collaborators, the calls of [re.compile] and the jobs
    handed to the executor, most recent first. *)
Record World : Type := mkWorld {
  self : LockEntity;
  re_compile_calls : list string;
  executor_jobs : list (DeviceOp * gmap string string)
}.

(** Computations that read and write the world and may raise.  An
    assignment made before an exception is raised stays made. *)
Definition M (A : Type) : Type := World -> result A * World.

Definition ret {A : Type} (a : A) : M A := fun w => (Ok a, w).

Definition raise {A : Type} (e : exn) : M A := fun w => (Raise e, w).

Definition bind {A B : Type} (c : M A) (k : A -> M B) : M B :=
  fun w =>
    match c w with
    | (Ok a, w') => k a w'
    | (Raise e, w') => (Raise e, w')
    end.

Notation "'let*' x ':=' c 'in' k" := (bind c (fun x => k))
  (at level 10, x name, c at level 200, k at level 200).
Notation "'run' c 'in' k" := (bind c (fun _ => k))
  (at level 10, c at level 200, k at level 200).

Definition get_self : M LockEntity := fun w => (Ok (self w), w).

Definition modify_self (f : LockEntity -> LockEntity) : M unit :=
  fun w =>
    (Ok tt,
     {| self := f (self w);
        re_compile_calls := re_compile_calls w;
        executor_jobs := executor_jobs w |}).

(** [re.compile(p)]: the call is recorded; it gives a pattern whose source
    is [p] when [p] is well formed and raises [re.error] when it is not. *)
Definition re_compile {regex : RegexEngine} (p : string) : M Pattern :=
  fun w =>
    (if re_valid p then Ok (mkPattern p) else Raise ReError,
     {| self := self w;
        re_compile_calls := p :: re_compile_calls w;
        executor_jobs := executor_jobs w |}).

(** [hass.async_add_executor_job(ft.partial(op, **kwargs))], awaited: the
    job is handed over and runs to its end. *)
Definition async_add_executor_job (op : DeviceOp) (kwargs : gmap string string)
    (job : M unit) : M unit :=
  fun w =>
    job {| self := self w;
           re_compile_calls := re_compile_calls w;
           executor_jobs := (op, kwargs) :: executor_jobs w |}.

(** The three methods an integration overrides. *)
Class LockDevice : Type := {
  lock : gmap string string -> M unit;
  unlock : gmap string string -> M unit;
  open : gmap string string -> M unit
}.

(** The methods of the base class, which an integration has to override. *)
Definition base_device : LockDevice :=
  {| lock := fun _ => raise NotImplementedError;
     unlock := fun _ => raise NotImplementedError;
     open := fun _ => raise NotImplementedError |}.

(** A service call: its data, target selector included. *)
Record ServiceCall : Type := mkServiceCall {
  data : gmap string string
}.

(** Modelled from the spec: [remove_entity_service_fields] of the host
    platform, which copies the data of a call without the fields of the
    target-entity selector. *)
Definition remove_entity_service_fields (service_call : ServiceCall)
  : gmap string string :=
  foldr delete (data service_call) ENTITY_SERVICE_FIELDS.

(** ** The code-format cache *)

(** [LockEntity.code_format_cmp].  A compiled pattern is a truthy object,
    so [not self.__code_format_cmp] holds exactly when nothing is cached.
    When [re.compile] raises, the assignment to the cache is not reached. *)
Definition code_format_cmp {regex : RegexEngine} : M (option Pattern) :=
  let* e := get_self in
  match code_format e with
  | None =>
      run modify_self (set_code_format_cmp None) in
      ret None
  | Some fmt =>
      run (if match _LockEntity__code_format_cmp e with
              | None => true
              | Some cmp => negb (String.eqb fmt (pattern cmp))
              end
           then
             let* cmp := re_compile fmt in
             modify_self (set_code_format_cmp (Some cmp))
           else ret tt) in
      let* e' := get_self in
      ret (_LockEntity__code_format_cmp e')
  end.

Section Lock.

Context {regex : RegexEngine} {device : LockDevice}.

(** [cmp.match(code)] on what [code_format_cmp] returned; the call on [None]
    is an [AttributeError]. *)
Definition pattern_match (cmp : option Pattern) (code : string) : M bool :=
  match cmp with
  | Some p => ret (re_match (pattern p) code)
  | None => raise AttributeError
  end.

(** ** Code resolution *)

(** [_add_default_code] *)
Definition _add_default_code (service_call : ServiceCall)
  : M (gmap string string) :=
  let data := remove_entity_service_fields service_call in
  let code := default "" (data !! ATTR_CODE) in
  let data := delete ATTR_CODE data in
  let* entity := get_self in
  let code :=
    if negb (truthy_str code) then _lock_option_default_code entity
    else code in
  let* cmp := code_format_cmp in
  let* mismatch :=
    (if bool_decide (is_Some cmp)
     then let* cmp' := code_format_cmp in
          let* matched := pattern_match cmp' code in
          ret (negb matched)
     else ret false) in
  run (if mismatch : bool
       then
         let* entity := get_self in
         raise (ValueError ("Code '" ++ code ++ "' for locking "
                              ++ entity_id entity
                              ++ " doesn't match pattern "
                              ++ format_opt (code_format entity)))
       else ret tt) in
  let data := if truthy_str code then <[ATTR_CODE := code]> data else data in
  ret data.

(** ** Command dispatch *)

Definition async_lock (kwargs : gmap string string) : M unit :=
  async_add_executor_job OpLock kwargs (lock kwargs).

Definition async_unlock (kwargs : gmap string string) : M unit :=
  async_add_executor_job OpUnlock kwargs (unlock kwargs).

Definition async_open (kwargs : gmap string string) : M unit :=
  async_add_executor_job OpOpen kwargs (open kwargs).

Definition _async_lock (service_call : ServiceCall) : M unit :=
  let* kwargs := _add_default_code service_call in
  async_lock kwargs.

Definition _async_unlock (service_call : ServiceCall) : M unit :=
  let* kwargs := _add_default_code service_call in
  async_unlock kwargs.

Definition _async_open (service_call : ServiceCall) : M unit :=
  let* kwargs := _add_default_code service_call in
  async_open kwargs.

(** ** Default-code option loading *)

(** The condition of the outer [if] of [_async_read_entity_options]: the
    value bound to [custom_default_lock_code] when the options of the lock
    domain are a non-empty mapping and the default code in them is a
    non-empty string, and [None] when the condition is false. *)
Definition custom_default_lock_code (entry : RegistryEntry) : option string :=
  match options entry !! DOMAIN with
  | Some lock_options =>
      if bool_decide (lock_options = ∅) then None
      else match lock_options !! CONF_DEFAULT_CODE with
           | Some custom => if truthy_str custom then Some custom else None
           | None => None
           end
  | None => None
  end.

(** [LockEntity._async_read_entity_options] *)
Definition _async_read_entity_options : M unit :=
  let* e := get_self in
  match registry_entry e with
  | None => raise AssertionError
  | Some entry =>
      match custom_default_lock_code entry with
      | Some custom =>
          let* cmp := code_format_cmp in
          let* accepted :=
            (if bool_decide (is_Some cmp)
             then let* cmp' := code_format_cmp in
                  pattern_match cmp' custom
             else ret false) in
          if accepted : bool
          then modify_self (set_lock_option_default_code custom)
          else ret tt
      | None => modify_self (set_lock_option_default_code "")
      end
  end.

(** [LockEntity.async_internal_added_to_hass]; the method of the parent
    class it starts with belongs to the host platform: it is taken to
    return and to leave the attributes of the lock alone. *)
Definition async_internal_added_to_hass : M unit :=
  let* e := get_self in
  match registry_entry e with
  | None => ret tt
  | Some _ => _async_read_entity_options
  end.

(** [LockEntity.async_registry_entry_updated] *)
Definition async_registry_entry_updated : M unit :=
  _async_read_entity_options.

End Lock.

(** ** The priority table of the state derivation *)

(** The four raw signals of a lock. *)
Record Signals : Type := mkSignals {
  isJammed : option bool;
  isLocking : option bool;
  isUnlocking : option bool;
  isLocked : option bool
}.

Definition signals_of (e : LockEntity) : Signals :=
  {| isJammed := is_jammed e;
     isLocking := is_locking e;
     isUnlocking := is_unlocking e;
     isLocked := is_locked e |}.

(** The table of the specification, one rule per line: a condition on the
    signals and the state it gives, [None] standing for the unknown state.
    The last line is the [else] of the fifth rule. *)
Definition priority_table : list ((Signals -> bool) * option string) :=
  [ (fun s => bool_decide (isJammed s = Some true), Some STATE_JAMMED);
    (fun s => bool_decide (isLocking s = Some true), Some STATE_LOCKING);
    (fun s => bool_decide (isUnlocking s = Some true), Some STATE_UNLOCKING);
    (fun s => bool_decide (isLocked s = None), None);
    (fun s => bool_decide (isLocked s = Some true), Some STATE_LOCKED);
    (fun _ => true, Some STATE_UNLOCKED) ].

(** The outcome of the first rule whose condition holds, top to bottom. *)
Fixpoint first_match {A B : Type} (rules : list ((A -> bool) * B)) (a : A)
  : option B :=
  match rules with
  | [] => None
  | (cond, outcome) :: rest =>
      if cond a then Some outcome else first_match rest a
  end.

(** ** The world after a read of the compiled code format *)

(** Whether a read of [code_format_cmp] has to compile: there is a format,
    and it is not the source of the cached pattern. *)
Definition recompiles (e : LockEntity) : bool :=
  match code_format e with
  | None => false
  | Some fmt =>
      negb (bool_decide (pattern <$> _LockEntity__code_format_cmp e = Some fmt))
  end.

(** Whether a read of [code_format_cmp] returns: it has nothing to compile,
    or the format it compiles is well formed. *)
Definition compiles {regex : RegexEngine} (e : LockEntity) : bool :=
  match code_format e with
  | None => true
  | Some fmt => negb (recompiles e) || re_valid fmt
  end.

(** The world a read of [code_format_cmp] leaves behind when [re.compile]
    raises: the call was made, and the entity is as it was. *)
Definition compile_failed (w : World) : World :=
  {| self := self w;
     re_compile_calls := option_list (code_format (self w)) ++ re_compile_calls w;
     executor_jobs := executor_jobs w |}.

(** The world a read of [code_format_cmp] that returns leaves behind. *)
Definition cached (w : World) : World :=
  {| self := set_code_format_cmp (mkPattern <$> code_format (self w)) (self w);
     re_compile_calls :=
       (if recompiles (self w) then option_list (code_format (self w)) else [])
         ++ re_compile_calls w;
     executor_jobs := executor_jobs w |}.

(** The code a command is resolved to: the code of the call, or the default
    code of the entity when the call has none. *)
Definition resolved_code (service_call : ServiceCall) (e : LockEntity)
  : string :=
  let code :=
    default "" (remove_entity_service_fields service_call !! ATTR_CODE) in
  if truthy_str code then code else _lock_option_default_code e.

(** The payload a resolved command goes out with. *)
Definition payload_of (service_call : ServiceCall) (code : string)
  : gmap string string :=
  let rest := delete ATTR_CODE (remove_entity_service_fields service_call) in
  if truthy_str code then <[ATTR_CODE := code]> rest else rest.

(** The message of the [ValueError] of [_add_default_code]. *)
Definition mismatch_message (code : string) (e : LockEntity) : string :=
  "Code '" ++ code ++ "' for locking " ++ entity_id e
    ++ " doesn't match pattern " ++ format_opt (code_format e).

(** Whether the code format of the entity lets a code through: there is no
    format, or the format matches the code. *)
Definition accepts {regex : RegexEngine} (e : LockEntity) (code : string)
  : bool :=
  match code_format e with
  | Some fmt => re_match fmt code
  | None => true
  end.

(** The world with the default code of its entity replaced. *)
Definition with_default_code (c : string) (w : World) : World :=
  {| self := set_lock_option_default_code c (self w);
     re_compile_calls := re_compile_calls w;
     executor_jobs := executor_jobs w |}.

(** The world after the registry has replaced the entry of the entity. *)
Definition with_registry_entry (r : RegistryEntry) (w : World) : World :=
  {| self := set_registry_entry (Some r) (self w);
     re_compile_calls := re_compile_calls w;
     executor_jobs := executor_jobs w |}.

(** The entry with the default code taken out of the options of the lock
    domain. *)
Definition without_default_code (entry : RegistryEntry) : RegistryEntry :=
  {| options := alter (delete CONF_DEFAULT_CODE) DOMAIN (options entry) |}.

(** The world after an integration has set the code format of the entity. *)
Definition with_code_format (f : option string) (w : World) : World :=
  {| self := set_attr_code_format f (self w);
     re_compile_calls := re_compile_calls w;
     executor_jobs := executor_jobs w |}.

(** The world once a job has been handed to the executor. *)
Definition job_handed (op : DeviceOp) (kwargs : gmap string string)
    (w : World) : World :=
  {| self := self w;
     re_compile_calls := re_compile_calls w;
     executor_jobs := (op, kwargs) :: executor_jobs w |}.

(** ** Sample entities *)

(** A registry entry whose lock options hold the default code [code]. *)
Definition entry_with_default_code (code : string) : RegistryEntry :=
  {| options := {[ DOMAIN := {[ CONF_DEFAULT_CODE := code ]} ]} |}.

(** A world that has seen no call yet. *)
Definition fresh_world (e : LockEntity) : World :=
  {| self := e; re_compile_calls := []; executor_jobs := [] |}.

(** A lock that asks for no code, registered with the default code 1234. *)
Definition plain_lock : LockEntity :=
  new_LockEntity "lock.garage" (Some (entry_with_default_code "1234")).

(** A lock whose codes have to start with 1234, registered with that
    default code. *)
Definition keypad_lock : LockEntity :=
  set_attr_code_format (Some "1234")
    (new_LockEntity "lock.front_door" (Some (entry_with_default_code "1234"))).

(** The same lock once its default code has been read. *)
Definition attached_keypad_lock : LockEntity :=
  set_lock_option_default_code "1234" keypad_lock.

(** A lock whose format is the empty expression, which matches every
    string, and which has no registry entry. *)
Definition optional_code_lock : LockEntity :=
  set_attr_code_format (Some "") (new_LockEntity "lock.shed" None).

(** The same lock with the default code 4321, registered with an empty
    default code. *)
Definition lenient_lock : LockEntity :=
  set_registry_entry (Some (entry_with_default_code ""))
    (set_lock_option_default_code "4321" optional_code_lock).

(** A lock whose format is a lone opening parenthesis, which is not a well
    formed expression, registered with the default code 1234. *)
Definition broken_lock : LockEntity :=
  set_attr_code_format (Some "(")
    (new_LockEntity "lock.attic" (Some (entry_with_default_code "1234"))).

(** A lock that asks for no code, registered without any option. *)
Definition unconfigured_lock : LockEntity :=
  set_lock_option_default_code "4321"
    (new_LockEntity "lock.cellar" (Some {| options := ∅ |})).

(** A call of a service with no code, and one with the code [c]. *)
Definition call_without_code : ServiceCall :=
  {| data := {[ "entity_id" := "lock.front_door" ]} |}.

Definition call_with_code (c : string) : ServiceCall :=
  {| data := {[ "entity_id" := "lock.front_door"; ATTR_CODE := c ]} |}.

(** * Properties *)

(** ** Strings and truth values *)

Lemma truthy_str_false (s : string) : truthy_str s = false <-> s = "".
Proof.
  unfold truthy_str. rewrite negb_false_iff. apply String.eqb_eq.
Qed.

Lemma truthy_str_true (s : string) : truthy_str s = true <-> s <> "".
Proof.
  unfold truthy_str. rewrite negb_true_iff. apply String.eqb_neq.
Qed.

Lemma truthy_spec (b : option bool) : truthy b = bool_decide (b = Some true).
Proof. by destruct b as [[]|]. Qed.

(** ** The code-format cache *)

Lemma recompiles_spec (e : LockEntity) :
  recompiles e = true <->
  exists fmt, code_format e = Some fmt /\
              pattern <$> _LockEntity__code_format_cmp e <> Some fmt.
Proof.
  unfold recompiles. destruct (code_format e) as [fmt|].
  - rewrite negb_true_iff, bool_decide_eq_false. split.
    + intros H. by exists fmt.
    + intros (f & Hf & H). by simplify_eq.
  - split; [done | by intros (f & Hf & _)].
Qed.

(** A second read finds the cache filled and changes nothing. *)
Lemma cached_idemp (w : World) : cached (cached w) = cached w.
Proof.
  destruct w as [e calls jobs]. destruct e as [eid entry cb fmt l lg ul j sf dc cmp].
  unfold cached, recompiles, code_format; simpl.
  destruct fmt as [fmt|]; simpl; [|done].
  by rewrite bool_decide_eq_true_2.
Qed.

Lemma cached_executor_jobs (w : World) :
  executor_jobs (cached w) = executor_jobs w.
Proof. done. Qed.

Lemma cached_code_format (w : World) :
  code_format (self (cached w)) = code_format (self w).
Proof. done. Qed.

Section LockProperties.

Context {regex : RegexEngine} {device : LockDevice}.

(** What a read of [code_format_cmp] returns and leaves behind. *)
Lemma code_format_cmp_eval (w : World) :
  code_format_cmp w =
  if compiles (self w)
  then (Ok (mkPattern <$> code_format (self w)), cached w)
  else (Raise ReError, compile_failed w).
Proof.
  destruct w as [e calls jobs].
  destruct e as [eid entry cb fmt l lg ul j sf dc cmp].
  unfold code_format_cmp, compiles, cached, compile_failed, recompiles.
  unfold bind, get_self, re_compile, code_format; simpl.
  destruct fmt as [fmt|]; simpl; [|done].
  destruct cmp as [[p]|]; simpl.
  - destruct (String.eqb_spec fmt p) as [->|Hne]; simpl.
    + by rewrite bool_decide_eq_true_2.
    + rewrite bool_decide_eq_false_2 by congruence. simpl.
      by destruct (re_valid fmt).
  - by destruct (re_valid fmt).
Qed.

(** Once a read has returned, the next one has nothing to compile. *)
Lemma compiles_cached (w : World) : compiles (self (cached w)) = true.
Proof.
  destruct w as [e calls jobs].
  destruct e as [eid entry cb fmt l lg ul j sf dc cmp].
  unfold compiles, cached, recompiles, code_format; simpl.
  destruct fmt as [fmt|]; simpl; [|done].
  by rewrite bool_decide_eq_true_2.
Qed.

(** A format that lets a code through compiles. *)
Lemma accepts_compiles (e : LockEntity) (code : string) :
  bool_decide (is_Some (code_format e)) && accepts e code = true ->
  compiles e = true.
Proof.
  unfold accepts, compiles.
  destruct (code_format e) as [fmt|]; simpl; [|done].
  intros H. rewrite (re_match_valid _ _ H). apply orb_true_r.
Qed.

Lemma accepts_true_compiles (e : LockEntity) (code : string) :
  accepts e code = true -> compiles e = true.
Proof.
  intros H. unfold compiles.
  destruct (code_format e) as [fmt|] eqn:Hfmt; [|done].
  rewrite <- (accepts_compiles e code).
  - unfold compiles. by rewrite Hfmt.
  - by rewrite Hfmt, H.
Qed.

(** ** Code resolution, evaluated *)

(** [_add_default_code] reads the compiled format; when that returns, which
    leaves the world [cached w], it returns the payload or raises its
    [ValueError], and when that raises, so does the resolution. *)
Lemma add_default_code_eval (service_call : ServiceCall) (w : World) :
  let code := resolved_code service_call (self w) in
  _add_default_code service_call w =
  if compiles (self w)
  then if accepts (self w) code
       then (Ok (payload_of service_call code), cached w)
       else (Raise (ValueError (mismatch_message code (self w))), cached w)
  else (Raise ReError, compile_failed w).
Proof.
  unfold _add_default_code, resolved_code, payload_of, mismatch_message.
  unfold accepts.
  set (rest := remove_entity_service_fields service_call).
  generalize (default "" (rest !! ATTR_CODE)); intros supplied.
  unfold bind at 1. unfold get_self at 1. cbv beta iota.
  replace (if negb (truthy_str supplied)
           then _lock_option_default_code (self w) else supplied)
    with (if truthy_str supplied
          then supplied else _lock_option_default_code (self w))
    by (by destruct (truthy_str supplied)).
  generalize (if truthy_str supplied
              then supplied else _lock_option_default_code (self w)).
  intros code.
  unfold bind at 1. rewrite code_format_cmp_eval.
  destruct (compiles (self w)); [|done].
  destruct (code_format (self w)) as [fmt|] eqn:Hfmt; simpl; [|done].
  unfold bind at 1. unfold bind at 1. unfold bind at 1.
  rewrite code_format_cmp_eval, compiles_cached, cached_idemp.
  rewrite cached_code_format, Hfmt. simpl.
  destruct (re_match fmt code); simpl; [done|].
  unfold bind, get_self, raise.
  by rewrite cached_code_format, Hfmt.
Qed.

(** The three dispatchers stop where the code resolution raises. *)
Lemma dispatch_raise (service_call : ServiceCall) (w w' : World) (e : exn) :
  _add_default_code service_call w = (Raise e, w') ->
  _async_lock service_call w = (Raise e, w') /\
  _async_unlock service_call w = (Raise e, w') /\
  _async_open service_call w = (Raise e, w').
Proof.
  intros H. unfold _async_lock, _async_unlock, _async_open, bind.
  by rewrite H.
Qed.

(** With a payload, the job is handed to the executor and run. *)
Lemma dispatch_ok (service_call : ServiceCall) (w w' : World)
    (kwargs : gmap string string) :
  _add_default_code service_call w = (Ok kwargs, w') ->
  _async_lock service_call w =
    lock kwargs (mkWorld (self w') (re_compile_calls w')
                   ((OpLock, kwargs) :: executor_jobs w')).
Proof.
  intros H. unfold _async_lock, bind. by rewrite H.
Qed.

(** ** Default-code option loading, evaluated *)

Lemma read_entity_options_eval (w : World) :
  _async_read_entity_options w =
  match registry_entry (self w) with
  | None => (Raise AssertionError, w)
  | Some entry =>
      match custom_default_lock_code entry with
      | Some custom =>
          if compiles (self w)
          then (Ok tt,
                if bool_decide (is_Some (code_format (self w)))
                   && accepts (self w) custom
                then with_default_code custom (cached w)
                else cached w)
          else (Raise ReError, compile_failed w)
      | None => (Ok tt, with_default_code "" w)
      end
  end.
Proof.
  unfold _async_read_entity_options, accepts.
  unfold bind at 1. unfold get_self at 1. cbv beta iota.
  destruct (registry_entry (self w)) as [entry|]; [|done].
  destruct (custom_default_lock_code entry) as [custom|]; [|done].
  unfold bind at 1. rewrite code_format_cmp_eval.
  destruct (compiles (self w)); [|done].
  destruct (code_format (self w)) as [fmt|] eqn:Hfmt; simpl; [|done].
  unfold bind at 1. unfold bind at 1.
  rewrite code_format_cmp_eval, compiles_cached, cached_idemp.
  rewrite cached_code_format, Hfmt.
  simpl. by destruct (re_match fmt custom).
Qed.

Lemma custom_default_lock_code_truthy (entry : RegistryEntry) (c : string) :
  custom_default_lock_code entry = Some c -> c <> "".
Proof.
  unfold custom_default_lock_code. intros H.
  destruct (options entry !! DOMAIN) as [opts|]; [|done].
  destruct (bool_decide (opts = ∅)); [done|].
  destruct (opts !! CONF_DEFAULT_CODE) as [c'|]; [|done].
  destruct (truthy_str c') eqn:Hc; [|done].
  simplify_eq. by apply truthy_str_true.
Qed.

(** The code of a call is not part of its target selector. *)
Lemma remove_entity_service_fields_code (service_call : ServiceCall) :
  remove_entity_service_fields service_call !! ATTR_CODE =
  data service_call !! ATTR_CODE.
Proof.
  unfold remove_entity_service_fields, ENTITY_SERVICE_FIELDS; simpl.
  by rewrite !lookup_delete_ne.
Qed.

Lemma payload_of_code (service_call : ServiceCall) (code : string) :
  payload_of service_call code !! ATTR_CODE =
  if truthy_str code then Some code else None.
Proof.
  unfold payload_of. destruct (truthy_str code).
  - apply lookup_insert_eq.
  - apply lookup_delete_eq.
Qed.

(** A default code that is in the options and not empty is the candidate
    of [_async_read_entity_options]. *)
Lemma custom_default_lock_code_intro (entry : RegistryEntry)
    (lock_options : gmap string string) (c : string) :
  options entry !! DOMAIN = Some lock_options ->
  lock_options !! CONF_DEFAULT_CODE = Some c ->
  c <> "" ->
  custom_default_lock_code entry = Some c.
Proof.
  intros Hopts Hc Hne. unfold custom_default_lock_code. rewrite Hopts.
  rewrite bool_decide_eq_false_2.
  - rewrite Hc. by rewrite (proj2 (truthy_str_true c)).
  - intros ->. by rewrite lookup_empty in Hc.
Qed.

(** An empty default code, or none, leaves no candidate. *)
Lemma custom_default_lock_code_empty (entry : RegistryEntry)
    (lock_options : gmap string string) :
  options entry !! DOMAIN = Some lock_options ->
  default "" (lock_options !! CONF_DEFAULT_CODE) = "" ->
  custom_default_lock_code entry = None.
Proof.
  intros Hopts Hc. unfold custom_default_lock_code. rewrite Hopts.
  destruct (bool_decide (lock_options = ∅)); [done|].
  destruct (lock_options !! CONF_DEFAULT_CODE) as [c|]; [|done].
  simpl in Hc. by subst c.
Qed.

(** The code resolution leaves the world a read of the compiled format
    leaves. *)
Lemma add_default_code_world (service_call : ServiceCall) (w : World) :
  (_add_default_code service_call w).2 =
  if compiles (self w) then cached w else compile_failed w.
Proof.
  pose proof (add_default_code_eval service_call w) as Heval.
  simpl in Heval. rewrite Heval.
  destruct (compiles (self w)); [destruct (accepts _ _)|]; done.
Qed.

(** The result of the code resolution in one equation. *)
Lemma add_default_code_result (service_call : ServiceCall) (w : World) :
  let code := resolved_code service_call (self w) in
  (_add_default_code service_call w).1 =
  if compiles (self w)
  then if accepts (self w) code
       then Ok (payload_of service_call code)
       else Raise (ValueError (mismatch_message code (self w)))
  else Raise ReError.
Proof.
  pose proof (add_default_code_eval service_call w) as Heval.
  simpl in *. rewrite Heval.
  destruct (compiles (self w)); [destruct (accepts _ _)|]; done.
Qed.

(** What a read of the compiled format returns. *)
Lemma code_format_cmp_result (w : World) :
  (code_format_cmp w).1 =
  if compiles (self w)
  then Ok (mkPattern <$> code_format (self w)) else Raise ReError.
Proof. rewrite code_format_cmp_eval. by destruct (compiles (self w)). Qed.

(** ** State derivation *)

(** C1: for every combination of the four signals the state of the entity is
    the outcome of the first rule of the priority table that matches, read
    top to bottom: jammed, locking, unlocking, then unknown when [is_locked]
    is [None], then locked or unlocked.  In particular a lock that is both
    jammed and locked reports jammed. *)
Theorem state_first_matching_rule (e : LockEntity) :
  first_match priority_table (signals_of e) = Some (state e) /\
  (forall eid entry cb fmt lg ul sf dc cmp,
     state (mkLockEntity eid entry cb fmt (Some true) lg ul (Some true)
              sf dc cmp) = Some STATE_JAMMED).
Proof.
  split.
  - destruct e as [eid entry cb fmt l lg ul j sf dc cmp].
    unfold state, signals_of, is_jammed, is_locking, is_unlocking, is_locked.
    simpl.
    destruct j as [[]|], lg as [[]|], ul as [[]|], l as [[]|]; reflexivity.
  - intros. reflexivity.
Qed.

(** ** The cache of one *)

(** C8: a read of the compiled code format returns no pattern and clears
    the cache when there is no format.  With a format, it calls [re.compile]
    exactly when the format is not the source of the cached pattern; a
    pattern it returns has the format as its source and is the cached one,
    and a second read with the format unchanged returns the same pattern
    and changes nothing, so it does not compile.  The read returns unless
    it has to compile a malformed format; then it raises [re.error] and the
    cache stays as it was. *)
Theorem code_format_cmp_cache_of_one (w : World) :
  let first := code_format_cmp w in
  match code_format (self w) with
  | None =>
      first.1 = Ok None /\
      _LockEntity__code_format_cmp (self first.2) = None /\
      re_compile_calls first.2 = re_compile_calls w /\
      code_format_cmp first.2 = first
  | Some fmt =>
      re_compile_calls first.2 =
        (if bool_decide (pattern <$> _LockEntity__code_format_cmp (self w)
                         = Some fmt)
         then re_compile_calls w
         else fmt :: re_compile_calls w) /\
      first.1 =
        (if bool_decide (pattern <$> _LockEntity__code_format_cmp (self w)
                         = Some fmt)
            || re_valid fmt
         then Ok (Some (mkPattern fmt))
         else Raise ReError) /\
      (forall cmp, first.1 = Ok cmp ->
         cmp = Some (mkPattern fmt) /\
         _LockEntity__code_format_cmp (self first.2) = cmp /\
         code_format_cmp first.2 = first) /\
      (forall e, first.1 = Raise e ->
         _LockEntity__code_format_cmp (self first.2)
           = _LockEntity__code_format_cmp (self w))
  end.
Proof.
  cbv zeta. rewrite (code_format_cmp_eval w).
  destruct (code_format (self w)) as [fmt|] eqn:Hfmt.
  - set (hit := bool_decide (pattern <$> _LockEntity__code_format_cmp (self w)
                             = Some fmt)).
    assert (Hcomp : compiles (self w) = hit || re_valid fmt).
    { unfold compiles, recompiles. by rewrite Hfmt, negb_involutive. }
    assert (Hcalls : re_compile_calls (cached w)
                     = if hit then re_compile_calls w
                       else fmt :: re_compile_calls w).
    { unfold cached, recompiles. rewrite Hfmt. fold hit. by destruct hit. }
    assert (Hcache : _LockEntity__code_format_cmp (self (cached w))
                     = Some (mkPattern fmt)).
    { unfold cached. simpl. by rewrite Hfmt. }
    assert (Hsecond : code_format_cmp (cached w)
                      = (Ok (Some (mkPattern fmt)), cached w)).
    { rewrite code_format_cmp_eval, compiles_cached, cached_idemp.
      by rewrite cached_code_format, Hfmt. }
    assert (Hfail : re_compile_calls (compile_failed w)
                    = fmt :: re_compile_calls w).
    { unfold compile_failed. simpl. by rewrite Hfmt. }
    rewrite Hcomp.
    destruct hit; [|destruct (re_valid fmt)]; cbn [fst snd orb].
    + split; [done|]. split; [done|]. split; [|done].
      intros cmp H. by simplify_eq.
    + split; [done|]. split; [done|]. split; [|done].
      intros cmp H. by simplify_eq.
    + split; [done|]. split; [done|]. split; done.
  - unfold compiles. rewrite Hfmt. cbn [fst snd].
    assert (Hcache : _LockEntity__code_format_cmp (self (cached w)) = None).
    { unfold cached. simpl. by rewrite Hfmt. }
    assert (Hcalls : re_compile_calls (cached w) = re_compile_calls w).
    { unfold cached, recompiles. by rewrite Hfmt. }
    split; [done|]. split; [done|]. split; [done|].
    rewrite code_format_cmp_eval, compiles_cached, cached_idemp.
    by rewrite cached_code_format, Hfmt.
Qed.

(** ** Code resolution *)

(** C4: when the call brings no code, or an empty one, and the default code
    of the entity is not empty, the command is resolved to the default code:
    the resolution returns when the format lets the default code through,
    and every payload it returns carries the default code. *)
Theorem empty_code_uses_default (service_call : ServiceCall) (w : World) :
  default "" (data service_call !! ATTR_CODE) = "" ->
  _lock_option_default_code (self w) <> "" ->
  let default_code := _lock_option_default_code (self w) in
  resolved_code service_call (self w) = default_code /\
  (accepts (self w) default_code = true ->
   exists payload, (_add_default_code service_call w).1 = Ok payload) /\
  (forall payload,
     (_add_default_code service_call w).1 = Ok payload ->
     payload !! ATTR_CODE = Some default_code).
Proof.
  intros Hcode Hdefault default_code.
  assert (Hres : resolved_code service_call (self w) = default_code).
  { unfold resolved_code.
    rewrite remove_entity_service_fields_code, Hcode. done. }
  pose proof (add_default_code_result service_call w) as Hr.
  simpl in Hr. rewrite Hres in Hr.
  assert (Hpay : payload_of service_call default_code !! ATTR_CODE
                 = Some default_code).
  { rewrite payload_of_code.
    by rewrite (proj2 (truthy_str_true default_code)). }
  split; [done|]. rewrite Hr. split.
  - intros Hacc. rewrite (accepts_true_compiles _ _ Hacc), Hacc.
    by eexists.
  - intros payload.
    destruct (compiles (self w)); [destruct (accepts _ _)|];
      simpl; intros; by simplify_eq.
Qed.

(** C5: the code resolution raises a [ValueError] exactly when the read of
    the compiled format returns a pattern and the resolved code does not
    match it; the message names the code, the entity and the format.
    Whatever the resolution raises, this error or the [re.error] of a
    malformed format, the three services stop there, in the world the
    resolution left; no job is handed to the executor and the state of the
    entity is as it was. *)
Theorem code_mismatch_raises (service_call : ServiceCall) (w : World) :
  let code := resolved_code service_call (self w) in
  let resolution := _add_default_code service_call w in
  ((exists msg, resolution.1 = Raise (ValueError msg)) <->
   (exists cmp, (code_format_cmp w).1 = Ok (Some cmp) /\
                re_match (pattern cmp) code = false)) /\
  (forall msg, resolution.1 = Raise (ValueError msg) ->
     exists cmp, (code_format_cmp w).1 = Ok (Some cmp) /\
        msg = "Code '" ++ code ++ "' for locking "
                ++ entity_id (self w)
                ++ " doesn't match pattern " ++ pattern cmp) /\
  (forall e, resolution.1 = Raise e ->
     _async_lock service_call w = (Raise e, resolution.2) /\
     _async_unlock service_call w = (Raise e, resolution.2) /\
     _async_open service_call w = (Raise e, resolution.2)) /\
  executor_jobs resolution.2 = executor_jobs w /\
  state (self resolution.2) = state (self w).
Proof.
  intros code resolution.
  pose proof (add_default_code_eval service_call w) as Heval.
  cbv zeta in Heval. fold code resolution in Heval.
  rewrite code_format_cmp_result.
  assert (Hdisp : forall e, resolution.1 = Raise e ->
            _async_lock service_call w = (Raise e, resolution.2) /\
            _async_unlock service_call w = (Raise e, resolution.2) /\
            _async_open service_call w = (Raise e, resolution.2)).
  { intros e He. apply dispatch_raise. fold resolution.
    rewrite <- He. by destruct resolution. }
  unfold accepts in Heval.
  destruct (compiles (self w)).
  - destruct (code_format (self w)) as [fmt|] eqn:Hfmt; simpl.
    + destruct (re_match fmt code) eqn:Hm.
      * split; [split|].
        -- intros [msg H]. rewrite Heval in H. done.
        -- intros (cmp & Hc & H). simplify_eq. simpl in H. congruence.
        -- split; [|split; [done|by rewrite Heval]].
           intros msg H. rewrite Heval in H. done.
      * split; [split|].
        -- intros _. by exists (mkPattern fmt).
        -- intros _. rewrite Heval. by eexists.
        -- split; [|split; [done|by rewrite Heval]].
           intros msg H. rewrite Heval in H. simpl in H. simplify_eq.
           exists (mkPattern fmt). split; [done|].
           unfold mismatch_message. by rewrite Hfmt.
    + split; [split|].
      * intros [msg H]. rewrite Heval in H. done.
      * intros (cmp & Hc & _). done.
      * split; [|split; [done|by rewrite Heval]].
        intros msg H. rewrite Heval in H. done.
  - split; [split|].
    + intros [msg H]. rewrite Heval in H. done.
    + intros (cmp & Hc & _). done.
    + split; [|split; [done|by rewrite Heval]].
      intros msg H. rewrite Heval in H. done.
Qed.

(** C6: on an entity with a code format, whose compiled pattern is what
    the read of the compiled format returns, a command with no code in the
    call and no default code is rejected with a [ValueError] when the
    pattern does not match the empty string, and goes out, without a code,
    when it does. *)
Theorem empty_code_empty_default (service_call : ServiceCall) (w : World)
    (cmp : Pattern) :
  (code_format_cmp w).1 = Ok (Some cmp) ->
  default "" (data service_call !! ATTR_CODE) = "" ->
  _lock_option_default_code (self w) = "" ->
  code_format (self w) = Some (pattern cmp) /\
  (re_match (pattern cmp) "" = false ->
   (_add_default_code service_call w).1 =
     Raise (ValueError (mismatch_message "" (self w)))) /\
  (re_match (pattern cmp) "" = true ->
   (_add_default_code service_call w).1 =
     Ok (delete ATTR_CODE (remove_entity_service_fields service_call))).
Proof.
  intros Hcmp Hcode Hdefault.
  rewrite code_format_cmp_result in Hcmp.
  destruct (compiles (self w)) eqn:Hcomp; [|done].
  destruct (code_format (self w)) as [fmt|] eqn:Hfmt; [|done].
  simpl in Hcmp. simplify_eq. simpl.
  split; [done|].
  pose proof (add_default_code_result service_call w) as Hr.
  simpl in Hr. rewrite Hr, Hcomp.
  replace (resolved_code service_call (self w)) with "".
  - unfold accepts. rewrite Hfmt. split; intros ->; done.
  - unfold resolved_code.
    by rewrite remove_entity_service_fields_code, Hcode.
Qed.

(** C7: a payload the code resolution returns has the code field exactly
    when the resolved code is not empty, and then the field is the resolved
    code; the field is never there with an empty value. *)
Theorem payload_code_iff_nonempty (service_call : ServiceCall) (w : World)
    (payload : gmap string string) :
  (_add_default_code service_call w).1 = Ok payload ->
  let code := resolved_code service_call (self w) in
  payload !! ATTR_CODE = (if truthy_str code then Some code else None) /\
  (is_Some (payload !! ATTR_CODE) <-> code <> "") /\
  payload !! ATTR_CODE <> Some "".
Proof.
  intros Hok code.
  pose proof (add_default_code_result service_call w) as Hr.
  simpl in Hr. fold code in Hr. rewrite Hr in Hok.
  assert (Hpay : payload = payload_of service_call code).
  { destruct (compiles (self w)); [destruct (accepts _ _)|];
      simpl in Hok; by simplify_eq. }
  rewrite Hpay, payload_of_code.
  destruct (truthy_str code) eqn:Hc.
  - apply truthy_str_true in Hc. repeat split; [done | by eexists |].
    intros H. by simplify_eq.
  - apply truthy_str_false in Hc. repeat split; [|done..].
    by intros [? ?].
Qed.

(** C10: the code resolution, whether it returns or raises, changes none of
    [changed_by], [code_format], [is_locked], [is_locking], [is_unlocking],
    [is_jammed], [supported_features] and the default code; the entity it
    leaves is the one it found but for the private compiled format, and its
    state, its state attributes and what a read of the compiled format
    returns are what they were. *)
Theorem add_default_code_frame (service_call : ServiceCall) (w : World) :
  let after := (_add_default_code service_call w).2 in
  changed_by (self after) = changed_by (self w) /\
  code_format (self after) = code_format (self w) /\
  is_locked (self after) = is_locked (self w) /\
  is_locking (self after) = is_locking (self w) /\
  is_unlocking (self after) = is_unlocking (self w) /\
  is_jammed (self after) = is_jammed (self w) /\
  supported_features (self after) = supported_features (self w) /\
  _lock_option_default_code (self after)
    = _lock_option_default_code (self w) /\
  self after
    = set_code_format_cmp (_LockEntity__code_format_cmp (self after))
        (self w) /\
  state (self after) = state (self w) /\
  state_attributes (self after) = state_attributes (self w) /\
  (code_format_cmp after).1 = (code_format_cmp w).1.
Proof.
  cbv zeta. rewrite add_default_code_world.
  destruct (compiles (self w)) eqn:Hc.
  - rewrite !code_format_cmp_result, compiles_cached, Hc.
    repeat split.
  - rewrite !code_format_cmp_result. change (self (compile_failed w))
      with (self w). rewrite Hc.
    repeat split. simpl. by destruct (self w).
Qed.

(** ** Default-code option loading *)

(** C9: when the lock options hold the default-code key with an empty
    string, reading the options sets the default code to the empty string,
    whatever the code format is, on a registry update and on attachment
    alike; the same happens once the key is taken out of the options. *)
Theorem empty_candidate_resets_default (w : World) (entry : RegistryEntry)
    (lock_options : gmap string string) :
  registry_entry (self w) = Some entry ->
  options entry !! DOMAIN = Some lock_options ->
  lock_options !! CONF_DEFAULT_CODE = Some "" ->
  _async_read_entity_options w = (Ok tt, with_default_code "" w) /\
  async_registry_entry_updated w = (Ok tt, with_default_code "" w) /\
  async_internal_added_to_hass w = (Ok tt, with_default_code "" w) /\
  _lock_option_default_code (self (with_default_code "" w)) = "" /\
  (let w_absent := with_registry_entry (without_default_code entry) w in
   _async_read_entity_options w_absent
     = (Ok tt, with_default_code "" w_absent)).
Proof.
  intros Hentry Hopts Hc.
  assert (Hread : _async_read_entity_options w
                  = (Ok tt, with_default_code "" w)).
  { rewrite read_entity_options_eval, Hentry.
    rewrite (custom_default_lock_code_empty entry lock_options);
      [done | done | by rewrite Hc]. }
  split; [done|]. split; [done|]. split; [|split; [done|]].
  - unfold async_internal_added_to_hass, bind, get_self.
    by rewrite Hentry.
  - simpl. rewrite read_entity_options_eval. simpl.
    rewrite (custom_default_lock_code_empty _
               (delete CONF_DEFAULT_CODE lock_options)); [done| |].
    + unfold without_default_code. simpl.
      by rewrite lookup_alter_eq, Hopts.
    + by rewrite lookup_delete_eq.
Qed.

(** C3, as the code has it: without a code format, a default code found in
    the options is not taken over.  The read succeeds; a default code that
    was empty is empty afterwards, and a default code that was not the
    candidate is not the candidate afterwards.  A candidate is taken over
    only when the read of the compiled format returns a pattern and the
    pattern matches it, and it is taken over then. *)
Theorem candidate_accepted_only_with_matcher (w : World)
    (entry : RegistryEntry) (lock_options : gmap string string)
    (candidate : string) :
  registry_entry (self w) = Some entry ->
  options entry !! DOMAIN = Some lock_options ->
  lock_options !! CONF_DEFAULT_CODE = Some candidate ->
  candidate <> "" ->
  let after := _async_read_entity_options w in
  (code_format (self w) = None ->
   after.1 = Ok tt /\
   (_lock_option_default_code (self w) = "" ->
    _lock_option_default_code (self after.2) = "") /\
   (_lock_option_default_code (self w) <> candidate ->
    _lock_option_default_code (self after.2) <> candidate)) /\
  (_lock_option_default_code (self w) <> candidate ->
   _lock_option_default_code (self after.2) = candidate ->
   exists cmp, (code_format_cmp w).1 = Ok (Some cmp) /\
               re_match (pattern cmp) candidate = true) /\
  (forall cmp,
     (code_format_cmp w).1 = Ok (Some cmp) ->
     re_match (pattern cmp) candidate = true ->
     after.1 = Ok tt /\
     _lock_option_default_code (self after.2) = candidate).
Proof.
  intros Hentry Hopts Hc Hne. cbv zeta.
  rewrite read_entity_options_eval, Hentry.
  rewrite (custom_default_lock_code_intro entry lock_options candidate);
    [|done..].
  rewrite code_format_cmp_result. unfold accepts.
  split; [|split].
  - intros Hfmt. unfold compiles. rewrite Hfmt. simpl. done.
  - intros Hprior.
    destruct (compiles (self w)); [|simpl; congruence].
    destruct (code_format (self w)) as [fmt|]; simpl; [|congruence].
    destruct (re_match fmt candidate) eqn:Hm; simpl; [|congruence].
    intros _. by exists (mkPattern fmt).
  - intros cmp Hcmp Hm.
    destruct (compiles (self w)); [|done].
    destruct (code_format (self w)) as [fmt|]; simpl in *; [|done].
    simplify_eq. simpl in Hm. by rewrite Hm.
Qed.

End LockProperties.

(** ** The properties at sample entities *)

Lemma empty_code_uses_default_witness :
  let w := fresh_world attached_keypad_lock in
  default "" (data call_without_code !! ATTR_CODE) = "" /\
  _lock_option_default_code (self w) <> "" /\
  resolved_code call_without_code (self w) = "1234" /\
  (@accepts literal_regex (self w) "1234" = true ->
   exists payload,
     (@_add_default_code literal_regex call_without_code w).1 = Ok payload) /\
  (forall payload,
     (@_add_default_code literal_regex call_without_code w).1 = Ok payload ->
     payload !! ATTR_CODE = Some "1234").
Proof.
  intros w. split; [vm_compute; reflexivity|]. split; [discriminate|].
  apply (@empty_code_uses_default literal_regex call_without_code w).
  - vm_compute; reflexivity.
  - discriminate.
Defined.

Lemma empty_code_empty_default_witness :
  let strict := fresh_world keypad_lock in
  let lenient := fresh_world optional_code_lock in
  (default "" (data call_without_code !! ATTR_CODE) = "" /\
   (@code_format_cmp literal_regex strict).1
     = Ok (Some (mkPattern "1234")) /\
   _lock_option_default_code (self strict) = "" /\
   @re_match literal_regex "1234" "" = false /\
   (@_add_default_code literal_regex call_without_code strict).1 =
     Raise (ValueError (mismatch_message "" (self strict)))) /\
  ((@code_format_cmp literal_regex lenient).1 = Ok (Some (mkPattern "")) /\
   _lock_option_default_code (self lenient) = "" /\
   @re_match literal_regex "" "" = true /\
   (@_add_default_code literal_regex call_without_code lenient).1 =
     Ok (delete ATTR_CODE (remove_entity_service_fields call_without_code))).
Proof.
  intros strict lenient.
  assert (Hcode : default "" (data call_without_code !! ATTR_CODE) = "")
    by (vm_compute; reflexivity).
  assert (Hstrict : (@code_format_cmp literal_regex strict).1
                    = Ok (Some (mkPattern "1234"))) by reflexivity.
  assert (Hlenient : (@code_format_cmp literal_regex lenient).1
                     = Ok (Some (mkPattern ""))) by reflexivity.
  split.
  - split; [exact Hcode|]. split; [exact Hstrict|].
    split; [reflexivity|]. split; [reflexivity|].
    apply (proj1 (proj2 (@empty_code_empty_default literal_regex
                           call_without_code strict (mkPattern "1234")
                           Hstrict Hcode eq_refl))).
    reflexivity.
  - split; [exact Hlenient|]. split; [reflexivity|]. split; [reflexivity|].
    apply (proj2 (proj2 (@empty_code_empty_default literal_regex
                           call_without_code lenient (mkPattern "")
                           Hlenient Hcode eq_refl))).
    reflexivity.
Defined.

Lemma payload_code_iff_nonempty_witness :
  let w := fresh_world keypad_lock in
  let payload : gmap string string := {[ ATTR_CODE := "1234" ]} in
  (@_add_default_code literal_regex (call_with_code "1234") w).1
    = Ok payload /\
  payload !! ATTR_CODE
    = (if truthy_str (resolved_code (call_with_code "1234") (self w))
       then Some (resolved_code (call_with_code "1234") (self w))
       else None) /\
  (is_Some (payload !! ATTR_CODE)
   <-> resolved_code (call_with_code "1234") (self w) <> "") /\
  payload !! ATTR_CODE <> Some "".
Proof.
  intros w payload.
  assert (Hok : (@_add_default_code literal_regex (call_with_code "1234")
                   w).1 = Ok payload) by (vm_compute; reflexivity).
  split; [exact Hok|].
  exact (@payload_code_iff_nonempty literal_regex (call_with_code "1234")
           w payload Hok).
Defined.

Lemma empty_candidate_resets_default_witness :
  let w := fresh_world lenient_lock in
  let entry := entry_with_default_code "" in
  let lock_options : gmap string string := {[ CONF_DEFAULT_CODE := "" ]} in
  (_lock_option_default_code (self w) = "4321" /\
   @accepts literal_regex (self w) "" = true /\
   registry_entry (self w) = Some entry /\
   options entry !! DOMAIN = Some lock_options /\
   lock_options !! CONF_DEFAULT_CODE = Some "") /\
  @_async_read_entity_options literal_regex w
    = (Ok tt, with_default_code "" w) /\
  @async_registry_entry_updated literal_regex w
    = (Ok tt, with_default_code "" w) /\
  @async_internal_added_to_hass literal_regex w
    = (Ok tt, with_default_code "" w) /\
  _lock_option_default_code (self (with_default_code "" w)) = "" /\
  (let w_absent := with_registry_entry (without_default_code entry) w in
   @_async_read_entity_options literal_regex w_absent
     = (Ok tt, with_default_code "" w_absent)).
Proof.
  intros w entry lock_options.
  assert (Hopts : options entry !! DOMAIN = Some lock_options)
    by (vm_compute; reflexivity).
  assert (Hc : lock_options !! CONF_DEFAULT_CODE = Some "")
    by (vm_compute; reflexivity).
  split.
  { split; [reflexivity|]. split; [reflexivity|]. split; [reflexivity|].
    split; [exact Hopts | exact Hc]. }
  exact (@empty_candidate_resets_default literal_regex w entry lock_options
           eq_refl Hopts Hc).
Defined.

Lemma candidate_accepted_only_with_matcher_witness :
  let entry := entry_with_default_code "1234" in
  let lock_options : gmap string string := {[ CONF_DEFAULT_CODE := "1234" ]} in
  let plain := fresh_world plain_lock in
  let keypad := fresh_world keypad_lock in
  (code_format (self plain) = None /\
   registry_entry (self plain) = Some entry /\
   options entry !! DOMAIN = Some lock_options /\
   lock_options !! CONF_DEFAULT_CODE = Some "1234" /\
   _lock_option_default_code (self plain) = "") /\
  ((@_async_read_entity_options literal_regex plain).1 = Ok tt /\
   (_lock_option_default_code (self plain) = "" ->
    _lock_option_default_code
      (self (@_async_read_entity_options literal_regex plain).2) = "") /\
   (_lock_option_default_code (self plain) <> "1234" ->
    _lock_option_default_code
      (self (@_async_read_entity_options literal_regex plain).2)
      <> "1234")) /\
  ((@code_format_cmp literal_regex keypad).1
     = Ok (Some (mkPattern "1234")) /\
   @re_match literal_regex "1234" "1234" = true /\
   (@_async_read_entity_options literal_regex keypad).1 = Ok tt /\
   _lock_option_default_code
     (self (@_async_read_entity_options literal_regex keypad).2) = "1234").
Proof.
  intros entry lock_options plain keypad.
  assert (Hopts : options entry !! DOMAIN = Some lock_options)
    by (vm_compute; reflexivity).
  assert (Hc : lock_options !! CONF_DEFAULT_CODE = Some "1234")
    by (vm_compute; reflexivity).
  assert (Hne : "1234" <> "") by discriminate.
  assert (Hcmp : (@code_format_cmp literal_regex keypad).1
                 = Ok (Some (mkPattern "1234"))) by reflexivity.
  split.
  { split; [reflexivity|]. split; [reflexivity|].
    split; [exact Hopts|]. split; [exact Hc | reflexivity]. }
  split.
  - exact (proj1 (@candidate_accepted_only_with_matcher literal_regex plain
                    entry lock_options "1234" eq_refl Hopts Hc Hne)
             eq_refl).
  - split; [exact Hcmp|]. split; [reflexivity|].
    exact (proj2 (proj2 (@candidate_accepted_only_with_matcher literal_regex
                           keypad entry lock_options "1234" eq_refl Hopts Hc
                           Hne))
             (mkPattern "1234") Hcmp eq_refl).
Defined.

(** ** Where the code and the specification part *)

(** C3, as the specification has it, fails: a lock without a code format,
    registered with the default code 1234, has an empty default code after
    its options are read, not 1234. *)
Lemma no_format_candidate_accepted_counterexample :
  let w := fresh_world plain_lock in
  let entry := entry_with_default_code "1234" in
  let lock_options : gmap string string := {[ CONF_DEFAULT_CODE := "1234" ]} in
  code_format (self w) = None /\
  registry_entry (self w) = Some entry /\
  options entry !! DOMAIN = Some lock_options /\
  lock_options !! CONF_DEFAULT_CODE = Some "1234" /\
  _lock_option_default_code
    (self (@_async_read_entity_options literal_regex w).2) <> "1234".
Proof.
  vm_compute. repeat split. discriminate.
Qed.

(** C2: a default code that stops matching is not cleared.  A lock whose
    codes have to start with 1234 takes the default code 1234 over when it
    is attached; the registry then changes the default code to 0000, which
    the format does not match; after the options are read again the default
    code is still 1234, where the specification has it reset to the empty
    string. *)
Theorem stale_default_code_survives_mismatch :
  let attached :=
    (@async_internal_added_to_hass literal_regex
       (fresh_world keypad_lock)).2 in
  let updated :=
    with_registry_entry (entry_with_default_code "0000") attached in
  let reread := @async_registry_entry_updated literal_regex updated in
  _lock_option_default_code (self attached) = "1234" /\
  custom_default_lock_code (entry_with_default_code "0000") = Some "0000" /\
  (@code_format_cmp literal_regex updated).1
    = Ok (Some (mkPattern "1234")) /\
  @re_match literal_regex "1234" "0000" = false /\
  reread.1 = Ok tt /\
  _lock_option_default_code (self reread.2) = "1234" /\
  _lock_option_default_code (self reread.2) <> "".
Proof.
  vm_compute. repeat split. discriminate.
Qed.

(** * Further properties of the module *)

(** ** The derived state and the state attributes *)

(** X1: the state is unknown exactly when [is_locked] is [None] and none of
    the jammed, locking and unlocking signals is [True]. *)
Theorem state_unknown_iff (e : LockEntity) :
  state e = None <->
  is_jammed e <> Some true /\ is_locking e <> Some true /\
  is_unlocking e <> Some true /\ is_locked e = None.
Proof.
  destruct e as [eid entry cb fmt l lg ul j sf dc cmp].
  unfold state, is_jammed, is_locking, is_unlocking, is_locked; simpl.
  destruct j as [[]|], lg as [[]|], ul as [[]|], l as [[]|]; simpl;
    split; try discriminate; try (intros (? & ? & ? & ?); congruence);
    intros _; repeat split; discriminate.
Qed.

(** X2: the steady states are reported only when no transient signal is
    [True]: the state is locked exactly when [is_locked] is [True] and none
    of jammed, locking, unlocking is, and unlocked exactly when [is_locked]
    is [False] and none of them is. *)
Theorem state_steady_iff (e : LockEntity) (locked : bool) :
  state e = Some (if locked then STATE_LOCKED else STATE_UNLOCKED) <->
  is_jammed e <> Some true /\ is_locking e <> Some true /\
  is_unlocking e <> Some true /\ is_locked e = Some locked.
Proof.
  destruct e as [eid entry cb fmt l lg ul j sf dc cmp].
  unfold state, is_jammed, is_locking, is_unlocking, is_locked; simpl.
  destruct locked, j as [[]|], lg as [[]|], ul as [[]|], l as [[]|]; simpl;
    split; try discriminate; try (intros (? & ? & ? & ?); congruence);
    intros _; repeat split; discriminate.
Qed.

(** X3: the state attributes hold [changed_by] and [code_format], each
    under its own name and only when it is not [None], and nothing else. *)
Theorem state_attributes_lookup (e : LockEntity) (k : string) :
  state_attributes e !! k =
  if bool_decide (k = ATTR_CODE_FORMAT) then code_format e
  else if bool_decide (k = ATTR_CHANGED_BY) then changed_by e
  else None.
Proof.
  unfold state_attributes, PROP_TO_ATTR, getattr; simpl.
  destruct (changed_by e) as [cb|], (code_format e) as [fmt|];
    repeat case_bool_decide; subst;
    rewrite ?lookup_insert_eq, ?lookup_insert_ne, ?lookup_empty by done;
    done.
Qed.

Section LockExtras.

Context {regex : RegexEngine} {device : LockDevice}.

(** What is left of the data of a call without the target selector. *)
Lemma remove_entity_service_fields_lookup (service_call : ServiceCall)
    (k : string) :
  remove_entity_service_fields service_call !! k =
  if bool_decide (k ∈ ENTITY_SERVICE_FIELDS) then None
  else data service_call !! k.
Proof.
  unfold remove_entity_service_fields, ENTITY_SERVICE_FIELDS; simpl.
  rewrite !lookup_delete.
  case_bool_decide as Hk.
  - rewrite !elem_of_cons, elem_of_nil in Hk.
    destruct Hk as [->|[->|[->|[]]]]; reflexivity.
  - rewrite !elem_of_cons, elem_of_nil in Hk.
    repeat case_decide; subst; try done; exfalso; apply Hk; auto.
Qed.

(** ** Code resolution *)

(** X4: a code in the call that is not empty takes precedence over the
    default code: the command is resolved to it.  When the read of the
    compiled format returns a pattern, that code is checked against it: if
    it matches, the payload is the data of the call without the target
    selector, and if not, the [ValueError] names that code.  Without a
    format the payload goes out unchecked, and an error of the read is the
    error of the resolution. *)
Theorem supplied_code_takes_precedence (service_call : ServiceCall)
    (w : World) (code : string) :
  data service_call !! ATTR_CODE = Some code ->
  code <> "" ->
  resolved_code service_call (self w) = code /\
  (_add_default_code service_call w).1 =
    match (code_format_cmp w).1 with
    | Ok (Some cmp) =>
        if re_match (pattern cmp) code
        then Ok (remove_entity_service_fields service_call)
        else Raise (ValueError ("Code '" ++ code ++ "' for locking "
                                  ++ entity_id (self w)
                                  ++ " doesn't match pattern "
                                  ++ pattern cmp))
    | Ok None => Ok (remove_entity_service_fields service_call)
    | Raise e => Raise e
    end.
Proof.
  intros Hcode Hne.
  assert (Hrm : remove_entity_service_fields service_call !! ATTR_CODE
                = Some code)
    by (by rewrite remove_entity_service_fields_code).
  assert (Hres : resolved_code service_call (self w) = code).
  { unfold resolved_code. rewrite Hrm. simpl.
    by rewrite (proj2 (truthy_str_true code)). }
  split; [done|].
  assert (Hpay : payload_of service_call code
                 = remove_entity_service_fields service_call).
  { unfold payload_of. rewrite (proj2 (truthy_str_true code)) by done.
    by rewrite insert_delete_eq, insert_id. }
  pose proof (add_default_code_result service_call w) as Hr.
  simpl in Hr. rewrite Hr, Hres, Hpay, code_format_cmp_result.
  unfold accepts, mismatch_message.
  destruct (compiles (self w)); [|done].
  destruct (code_format (self w)) as [fmt|]; simpl; [|done].
  by destruct (re_match fmt code).
Qed.

(** X5: the code resolution touches the code field only.  In a payload it
    returns, every other field is the field of the call, except for the
    fields of the target selector, which are gone. *)
Theorem payload_keeps_other_fields (service_call : ServiceCall) (w : World)
    (payload : gmap string string) (k : string) :
  (_add_default_code service_call w).1 = Ok payload ->
  k <> ATTR_CODE ->
  payload !! k =
  if bool_decide (k ∈ ENTITY_SERVICE_FIELDS) then None
  else data service_call !! k.
Proof.
  intros Hok Hk.
  pose proof (add_default_code_result service_call w) as Hr.
  simpl in Hr. rewrite Hr in Hok.
  destruct (compiles (self w)); [|done].
  destruct (accepts _ _); [|done]. simplify_eq.
  unfold payload_of. destruct (truthy_str _).
  - rewrite lookup_insert_ne, lookup_delete_ne by done.
    apply remove_entity_service_fields_lookup.
  - rewrite lookup_delete_ne by done.
    apply remove_entity_service_fields_lookup.
Qed.

(** X6: an entity without a code format takes any code.  The resolution
    returns, compiles nothing, and the payload has the resolved code when
    that is not empty and no code otherwise. *)
Theorem no_format_takes_any_code (service_call : ServiceCall) (w : World) :
  code_format (self w) = None ->
  let code := resolved_code service_call (self w) in
  let resolution := _add_default_code service_call w in
  resolution.1 = Ok (payload_of service_call code) /\
  payload_of service_call code !! ATTR_CODE
    = (if truthy_str code then Some code else None) /\
  re_compile_calls resolution.2 = re_compile_calls w.
Proof.
  intros Hfmt code resolution. subst resolution.
  pose proof (add_default_code_eval service_call w) as Heval.
  cbv zeta in Heval. rewrite Heval.
  unfold compiles, accepts. rewrite Hfmt. simpl.
  split; [done|]. split; [apply payload_of_code|].
  unfold recompiles. by rewrite Hfmt.
Qed.

(** ** Command dispatch *)

(** X7: when the code passes, each service hands one job to the executor,
    with the payload of the resolution, and runs its own method of the
    device on that payload: [lock] for the lock service, [unlock] for the
    unlock service, [open] for the open service. *)
Theorem dispatch_hands_payload_over (service_call : ServiceCall) (w : World) :
  accepts (self w) (resolved_code service_call (self w)) = true ->
  let payload :=
    payload_of service_call (resolved_code service_call (self w)) in
  _async_lock service_call w
    = lock payload (job_handed OpLock payload (cached w)) /\
  _async_unlock service_call w
    = unlock payload (job_handed OpUnlock payload (cached w)) /\
  _async_open service_call w
    = open payload (job_handed OpOpen payload (cached w)).
Proof.
  intros Hacc payload.
  assert (Hok : _add_default_code service_call w = (Ok payload, cached w)).
  { pose proof (add_default_code_eval service_call w) as Heval.
    cbv zeta in Heval.
    by rewrite Heval, (accepts_true_compiles _ _ Hacc), Hacc. }
  unfold _async_lock, _async_unlock, _async_open, bind. rewrite Hok.
  done.
Qed.

End LockExtras.

(** X8: the methods of the base class are not implemented.  On an entity
    that overrides none of them, a command whose code passes raises
    [NotImplementedError], after its job was handed to the executor; the
    entity is changed no further than by the read of the compiled format. *)
Theorem base_device_not_implemented {regex : RegexEngine}
    (service_call : ServiceCall) (w : World) :
  accepts (self w) (resolved_code service_call (self w)) = true ->
  let payload :=
    payload_of service_call (resolved_code service_call (self w)) in
  @_async_lock regex base_device service_call w
    = (Raise NotImplementedError, job_handed OpLock payload (cached w)) /\
  @_async_unlock regex base_device service_call w
    = (Raise NotImplementedError, job_handed OpUnlock payload (cached w)) /\
  @_async_open regex base_device service_call w
    = (Raise NotImplementedError, job_handed OpOpen payload (cached w)).
Proof.
  intros Hacc payload.
  assert (Hok : _add_default_code service_call w = (Ok payload, cached w)).
  { pose proof (add_default_code_eval service_call w) as Heval.
    cbv zeta in Heval.
    by rewrite Heval, (accepts_true_compiles _ _ Hacc), Hacc. }
  unfold _async_lock, _async_unlock, _async_open, bind. rewrite Hok.
  done.
Qed.

(** ** The cache and a changing code format *)

Section CacheExtras.

Context {regex : RegexEngine}.

(** X9: after a read that returned, a change of the code format to another
    expression makes the next read call [re.compile] once, on the new
    expression.  When that is well formed, the read returns its pattern and
    caches it; when it is malformed, the read raises [re.error] and the
    pattern cached before stays. *)
Theorem format_change_recompiles_once (w : World) (g : string)
    (cmp0 : option Pattern) :
  (code_format_cmp w).1 = Ok cmp0 ->
  code_format (self w) <> Some g ->
  let w1 := (code_format_cmp w).2 in
  let second := code_format_cmp (with_code_format (Some g) w1) in
  re_compile_calls second.2 = g :: re_compile_calls w1 /\
  (re_valid g = true ->
   second.1 = Ok (Some (mkPattern g)) /\
   _LockEntity__code_format_cmp (self second.2) = Some (mkPattern g)) /\
  (re_valid g = false ->
   second.1 = Raise ReError /\
   _LockEntity__code_format_cmp (self second.2) = cmp0).
Proof.
  intros Hfirst Hne. cbv zeta.
  rewrite (code_format_cmp_eval w) in *.
  destruct (compiles (self w)); [|done].
  cbn [fst snd] in *. simplify_eq.
  rewrite code_format_cmp_eval.
  assert (Hcomp : compiles (self (with_code_format (Some g) (cached w)))
                  = re_valid g).
  { unfold compiles, recompiles, with_code_format, cached, code_format.
    simpl. rewrite bool_decide_eq_false_2; [done|].
    unfold code_format in Hne.
    by destruct (_attr_code_format (self w)). }
  assert (Hrec : recompiles (self (with_code_format (Some g) (cached w)))
                 = true).
  { unfold recompiles, with_code_format, cached, code_format.
    simpl. rewrite bool_decide_eq_false_2; [done|].
    unfold code_format in Hne.
    by destruct (_attr_code_format (self w)). }
  assert (Hcalls : re_compile_calls
                     (cached (with_code_format (Some g) (cached w)))
                   = g :: re_compile_calls (cached w)).
  { unfold cached at 1. by rewrite Hrec. }
  rewrite Hcomp.
  destruct (re_valid g); cbn [fst snd].
  - split; [exact Hcalls|]. split; [done|]. intros; done.
  - split; [done|]. split; [intros; done|]. done.
Qed.

(** X10: taking the code format away clears the cache only at the next
    read.  After a read that returned a pattern, when the format is taken
    away and put back before any read, the cached pattern is used again and
    [re.compile] is not called; when a read came in between, [re.compile]
    is called on the same expression again. *)
Theorem clearing_format_drops_cache_on_read (w : World) (f : string) :
  (code_format_cmp w).1 = Ok (Some (mkPattern f)) ->
  let w1 := (code_format_cmp w).2 in
  let cleared := with_code_format None w1 in
  re_compile_calls
    (code_format_cmp (with_code_format (Some f) cleared)).2
    = re_compile_calls w1 /\
  re_compile_calls
    (code_format_cmp
       (with_code_format (Some f) (code_format_cmp cleared).2)).2
    = f :: re_compile_calls w1.
Proof.
  intros Hfirst. cbv zeta.
  rewrite (code_format_cmp_eval w) in *.
  destruct (compiles (self w)); [|done].
  cbn [fst snd] in *.
  assert (Hf : _attr_code_format (self w) = Some f).
  { unfold code_format in Hfirst.
    destruct (_attr_code_format (self w)) as [x|]; simpl in Hfirst;
      [|done].
    by injection Hfirst as ->. }
  split.
  - set (restored := with_code_format (Some f)
                       (with_code_format None (cached w))).
    assert (Hrec : recompiles (self restored) = false).
    { unfold recompiles, restored, with_code_format, cached, code_format.
      simpl. rewrite Hf. simpl. by rewrite bool_decide_eq_true_2. }
    rewrite code_format_cmp_eval. unfold compiles.
    change (code_format (self restored)) with (Some f). rewrite Hrec.
    cbn [negb orb snd]. unfold cached at 1. by rewrite Hrec.
  - rewrite (code_format_cmp_eval (with_code_format None (cached w))).
    change (compiles (self (with_code_format None (cached w)))) with true.
    cbn [snd].
    set (read := cached (with_code_format None (cached w))).
    set (restored := with_code_format (Some f) read).
    assert (Hrec : recompiles (self restored) = true) by done.
    rewrite code_format_cmp_eval.
    destruct (compiles (self restored)); cbn [snd].
    + unfold cached at 1. rewrite Hrec. reflexivity.
    + reflexivity.
Qed.

End CacheExtras.

(** ** Default-code option loading *)

Lemma cached_with_default_code (c : string) (w : World) :
  cached (with_default_code c w) = with_default_code c (cached w).
Proof. reflexivity. Qed.

Section OptionLoading.

Context {regex : RegexEngine}.

(** X11: a default code in the lock options that is not empty and that the
    code format of the entity matches becomes the default code of the
    entity. *)
Theorem matching_candidate_accepted (w : World) (entry : RegistryEntry)
    (lock_options : gmap string string) (candidate fmt : string) :
  registry_entry (self w) = Some entry ->
  options entry !! DOMAIN = Some lock_options ->
  lock_options !! CONF_DEFAULT_CODE = Some candidate ->
  candidate <> "" ->
  code_format (self w) = Some fmt ->
  re_match fmt candidate = true ->
  let after := _async_read_entity_options w in
  after.1 = Ok tt /\
  _lock_option_default_code (self after.2) = candidate.
Proof.
  intros Hentry Hopts Hc Hne Hfmt Hm. cbv zeta.
  rewrite read_entity_options_eval, Hentry.
  rewrite (custom_default_lock_code_intro entry lock_options candidate)
    by done.
  assert (Hacc : bool_decide (is_Some (code_format (self w)))
                 && accepts (self w) candidate = true).
  { unfold accepts. by rewrite Hfmt, Hm. }
  by rewrite (accepts_compiles _ _ Hacc), Hacc.
Qed.

(** X12: when the options have nothing for the lock domain, or the lock
    options have no default code, reading the options sets the default code
    to the empty string, whatever it was, and compiles nothing. *)
Theorem missing_default_code_resets (w : World) (entry : RegistryEntry) :
  registry_entry (self w) = Some entry ->
  (forall lock_options,
     options entry !! DOMAIN = Some lock_options ->
     lock_options !! CONF_DEFAULT_CODE = None) ->
  _async_read_entity_options w = (Ok tt, with_default_code "" w) /\
  _lock_option_default_code (self (with_default_code "" w)) = "" /\
  re_compile_calls (with_default_code "" w) = re_compile_calls w.
Proof.
  intros Hentry Hnone. split; [|done].
  rewrite read_entity_options_eval, Hentry.
  unfold custom_default_lock_code.
  destruct (options entry !! DOMAIN) as [opts|] eqn:Hopts; [|done].
  rewrite (Hnone opts eq_refl). by destruct (bool_decide _).
Qed.

(** X13: without a registry entry, a registry update raises an
    [AssertionError], while the attachment to the platform returns without
    reading any option; both leave the entity as it is. *)
Theorem missing_registry_entry (w : World) :
  registry_entry (self w) = None ->
  async_registry_entry_updated w = (Raise AssertionError, w) /\
  async_internal_added_to_hass w = (Ok tt, w).
Proof.
  intros Hentry.
  unfold async_registry_entry_updated, async_internal_added_to_hass.
  rewrite read_entity_options_eval.
  unfold bind, get_self, ret. by rewrite Hentry.
Qed.

(** X14: reading the options changes the default code and the private
    compiled format at most: the identifier, the registry entry, the
    properties, the state, the state attributes and the jobs of the executor
    are as before, also when the read raises. *)
Theorem read_entity_options_frame (w : World) :
  let after := (_async_read_entity_options w).2 in
  entity_id (self after) = entity_id (self w) /\
  registry_entry (self after) = registry_entry (self w) /\
  changed_by (self after) = changed_by (self w) /\
  code_format (self after) = code_format (self w) /\
  is_locked (self after) = is_locked (self w) /\
  is_locking (self after) = is_locking (self w) /\
  is_unlocking (self after) = is_unlocking (self w) /\
  is_jammed (self after) = is_jammed (self w) /\
  supported_features (self after) = supported_features (self w) /\
  state (self after) = state (self w) /\
  state_attributes (self after) = state_attributes (self w) /\
  executor_jobs after = executor_jobs w.
Proof.
  cbv zeta. rewrite read_entity_options_eval.
  destruct (registry_entry (self w)) as [entry|] eqn:Hentry;
    [|by rewrite ?Hentry].
  destruct (custom_default_lock_code entry) as [custom|];
    [|simpl; by rewrite ?Hentry].
  destruct (compiles (self w)); [|simpl; by rewrite ?Hentry].
  destruct (_ && _); simpl; by rewrite ?Hentry.
Qed.

(** X15: reading the options is idempotent once it has returned: a second
    read, with the registry entry and the code format unchanged, returns
    too and leaves the world of the first, so it compiles nothing more. *)
Theorem read_entity_options_idempotent (w : World) :
  (_async_read_entity_options w).1 = Ok tt ->
  _async_read_entity_options (_async_read_entity_options w).2
    = _async_read_entity_options w.
Proof.
  rewrite (read_entity_options_eval w).
  destruct (registry_entry (self w)) as [entry|] eqn:Hentry; [|done].
  destruct (custom_default_lock_code entry) as [custom|] eqn:Hcustom.
  - destruct (compiles (self w)) eqn:Hcomp; [|done]. intros _.
    cbn [snd].
    destruct (_ && _) eqn:Hacc.
    + rewrite read_entity_options_eval.
      change (registry_entry (self (with_default_code custom (cached w))))
        with (registry_entry (self w)).
      rewrite Hentry, Hcustom.
      change (compiles (self (with_default_code custom (cached w))))
        with (compiles (self (cached w))).
      rewrite compiles_cached.
      change (code_format (self (with_default_code custom (cached w))))
        with (code_format (self w)).
      change (accepts (self (with_default_code custom (cached w))) custom)
        with (accepts (self w) custom).
      rewrite Hacc.
      by rewrite cached_with_default_code, cached_idemp.
    + rewrite read_entity_options_eval.
      change (registry_entry (self (cached w)))
        with (registry_entry (self w)).
      rewrite Hentry, Hcustom, compiles_cached, cached_code_format.
      change (accepts (self (cached w)) custom)
        with (accepts (self w) custom).
      rewrite Hacc. by rewrite cached_idemp.
  - intros _. cbn [snd]. rewrite read_entity_options_eval.
    change (registry_entry (self (with_default_code "" w)))
      with (registry_entry (self w)).
    by rewrite Hentry, Hcustom.
Qed.

(** X16: a default code that reading the options has taken over is the code
    of the next command that brings none: with the code format unchanged,
    the resolution returns, and the payload carries that default code. *)
Theorem accepted_default_code_is_used (w : World) (entry : RegistryEntry)
    (lock_options : gmap string string) (candidate fmt : string)
    (service_call : ServiceCall) :
  registry_entry (self w) = Some entry ->
  options entry !! DOMAIN = Some lock_options ->
  lock_options !! CONF_DEFAULT_CODE = Some candidate ->
  candidate <> "" ->
  code_format (self w) = Some fmt ->
  re_match fmt candidate = true ->
  default "" (data service_call !! ATTR_CODE) = "" ->
  let attached := (_async_read_entity_options w).2 in
  (_add_default_code service_call attached).1
    = Ok (<[ATTR_CODE := candidate]>
            (remove_entity_service_fields service_call)).
Proof.
  intros Hentry Hopts Hc Hne Hfmt Hm Hcode. cbv zeta.
  rewrite read_entity_options_eval, Hentry.
  rewrite (custom_default_lock_code_intro entry lock_options candidate)
    by done.
  assert (Hacc : bool_decide (is_Some (code_format (self w)))
                 && accepts (self w) candidate = true).
  { unfold accepts. by rewrite Hfmt, Hm. }
  rewrite (accepts_compiles _ _ Hacc), Hacc. cbn [snd].
  pose proof (add_default_code_result service_call
                (with_default_code candidate (cached w))) as Hr.
  cbv zeta in Hr. rewrite Hr. clear Hr.
  change (compiles (self (with_default_code candidate (cached w))))
    with (compiles (self (cached w))).
  rewrite compiles_cached.
  assert (Hres : resolved_code service_call
                   (self (with_default_code candidate (cached w)))
                 = candidate).
  { unfold resolved_code.
    by rewrite remove_entity_service_fields_code, Hcode. }
  rewrite Hres.
  change (accepts (self (with_default_code candidate (cached w))) candidate)
    with (accepts (self w) candidate).
  apply andb_prop in Hacc as [_ Hacc]. rewrite Hacc.
  unfold payload_of. rewrite (proj2 (truthy_str_true candidate)) by done.
  by rewrite insert_delete_eq.
Qed.

(** X17: a registry update raises for two reasons only: an entity without
    a registry entry gives an [AssertionError], and a default code that is
    there to be checked gives the error of the read of the compiled format,
    the [re.error] of a malformed format.  A default code that the format
    does not match raises nothing: it is passed over in silence. *)
Theorem option_loading_errors (w : World) :
  (async_registry_entry_updated w).1 =
    match registry_entry (self w) with
    | None => Raise AssertionError
    | Some entry =>
        match custom_default_lock_code entry with
        | None => Ok tt
        | Some _ =>
            match (code_format_cmp w).1 with
            | Ok _ => Ok tt
            | Raise e => Raise e
            end
        end
    end.
Proof.
  unfold async_registry_entry_updated.
  rewrite read_entity_options_eval, code_format_cmp_result.
  destruct (registry_entry (self w)) as [entry|]; [|done].
  destruct (custom_default_lock_code entry); [|done].
  by destruct (compiles (self w)).
Qed.

End OptionLoading.

(** ** A malformed code format *)

(** X18: with a malformed code format that is not the source of the cached
    pattern, every command fails before it reaches the device: the code
    resolution raises [re.error], whatever the code, the three services
    raise it too and hand no job to the executor, nothing is cached, and
    the next read of the compiled format raises again. *)
Theorem malformed_format_raises {regex : RegexEngine} {device : LockDevice}
    (service_call : ServiceCall) (w : World) (fmt : string) :
  code_format (self w) = Some fmt ->
  re_valid fmt = false ->
  pattern <$> _LockEntity__code_format_cmp (self w) <> Some fmt ->
  let resolution := _add_default_code service_call w in
  resolution.1 = Raise ReError /\
  _async_lock service_call w = (Raise ReError, resolution.2) /\
  _async_unlock service_call w = (Raise ReError, resolution.2) /\
  _async_open service_call w = (Raise ReError, resolution.2) /\
  executor_jobs resolution.2 = executor_jobs w /\
  self resolution.2 = self w /\
  re_compile_calls resolution.2 = fmt :: re_compile_calls w /\
  (code_format_cmp resolution.2).1 = Raise ReError.
Proof.
  intros Hfmt Hv Hcache. cbv zeta.
  assert (Hcomp : compiles (self w) = false).
  { unfold compiles, recompiles. rewrite Hfmt, Hv.
    by rewrite bool_decide_eq_false_2. }
  assert (Heval : _add_default_code service_call w
                  = (Raise ReError, compile_failed w)).
  { pose proof (add_default_code_eval service_call w) as H.
    cbv zeta in H. by rewrite H, Hcomp. }
  destruct (dispatch_raise service_call w _ _ Heval) as (Hl & Hu & Ho).
  rewrite Heval. cbn [fst snd].
  split; [done|]. split; [done|]. split; [done|]. split; [done|].
  split; [done|]. split; [done|]. split.
  - unfold compile_failed. simpl. by rewrite Hfmt.
  - rewrite code_format_cmp_result.
    change (self (compile_failed w)) with (self w). by rewrite Hcomp.
Qed.

(** ** The further properties at sample entities *)

Lemma supplied_code_takes_precedence_witness :
  let w := fresh_world attached_keypad_lock in
  let call := call_with_code "12349" in
  _lock_option_default_code (self w) = "1234" /\
  data call !! ATTR_CODE = Some "12349" /\
  (@code_format_cmp literal_regex w).1 = Ok (Some (mkPattern "1234")) /\
  resolved_code call (self w) = "12349" /\
  (@_add_default_code literal_regex call w).1 =
    match (@code_format_cmp literal_regex w).1 with
    | Ok (Some cmp) =>
        if @re_match literal_regex (pattern cmp) "12349"
        then Ok (remove_entity_service_fields call)
        else Raise (ValueError ("Code '" ++ "12349" ++ "' for locking "
                                  ++ entity_id (self w)
                                  ++ " doesn't match pattern "
                                  ++ pattern cmp))
    | Ok None => Ok (remove_entity_service_fields call)
    | Raise e => Raise e
    end.
Proof.
  intros w call.
  assert (Hcode : data call !! ATTR_CODE = Some "12349")
    by (vm_compute; reflexivity).
  split; [reflexivity|]. split; [exact Hcode|]. split; [reflexivity|].
  apply (@supplied_code_takes_precedence literal_regex call w "12349" Hcode).
  discriminate.
Defined.

Lemma payload_keeps_other_fields_witness :
  let w := fresh_world keypad_lock in
  let call := call_with_code "1234" in
  let payload : gmap string string := {[ ATTR_CODE := "1234" ]} in
  data call !! "entity_id" = Some "lock.front_door" /\
  (@_add_default_code literal_regex call w).1 = Ok payload /\
  payload !! "entity_id" =
    if bool_decide ("entity_id" ∈ ENTITY_SERVICE_FIELDS) then None
    else data call !! "entity_id".
Proof.
  intros w call payload.
  assert (Hok : (@_add_default_code literal_regex call w).1 = Ok payload)
    by (vm_compute; reflexivity).
  split; [vm_compute; reflexivity|]. split; [exact Hok|].
  apply (@payload_keeps_other_fields literal_regex call w payload
           "entity_id" Hok).
  discriminate.
Defined.

Lemma no_format_takes_any_code_witness :
  let w := fresh_world plain_lock in
  let call := call_with_code "open sesame" in
  let resolution := @_add_default_code literal_regex call w in
  code_format (self w) = None /\
  resolution.1 = Ok (payload_of call (resolved_code call (self w))) /\
  payload_of call (resolved_code call (self w)) !! ATTR_CODE
    = (if truthy_str (resolved_code call (self w))
       then Some (resolved_code call (self w)) else None) /\
  re_compile_calls resolution.2 = re_compile_calls w.
Proof.
  intros w call resolution. split; [reflexivity|].
  exact (@no_format_takes_any_code literal_regex call w eq_refl).
Defined.

Lemma dispatch_hands_payload_over_witness :
  let w := fresh_world keypad_lock in
  let call := call_with_code "1234" in
  let payload := payload_of call (resolved_code call (self w)) in
  @accepts literal_regex (self w) (resolved_code call (self w)) = true /\
  @_async_lock literal_regex base_device call w
    = @lock base_device payload (job_handed OpLock payload (cached w)) /\
  @_async_unlock literal_regex base_device call w
    = @unlock base_device payload (job_handed OpUnlock payload (cached w)) /\
  @_async_open literal_regex base_device call w
    = @open base_device payload (job_handed OpOpen payload (cached w)).
Proof.
  intros w call payload.
  assert (Hacc : @accepts literal_regex (self w)
                   (resolved_code call (self w)) = true)
    by (vm_compute; reflexivity).
  split; [exact Hacc|].
  exact (@dispatch_hands_payload_over literal_regex base_device call w Hacc).
Defined.

Lemma base_device_not_implemented_witness :
  let w := fresh_world keypad_lock in
  let call := call_with_code "1234" in
  let payload := payload_of call (resolved_code call (self w)) in
  @accepts literal_regex (self w) (resolved_code call (self w)) = true /\
  @_async_lock literal_regex base_device call w
    = (Raise NotImplementedError, job_handed OpLock payload (cached w)) /\
  @_async_unlock literal_regex base_device call w
    = (Raise NotImplementedError, job_handed OpUnlock payload (cached w)) /\
  @_async_open literal_regex base_device call w
    = (Raise NotImplementedError, job_handed OpOpen payload (cached w)).
Proof.
  intros w call payload.
  assert (Hacc : @accepts literal_regex (self w)
                   (resolved_code call (self w)) = true)
    by (vm_compute; reflexivity).
  split; [exact Hacc|].
  exact (@base_device_not_implemented literal_regex call w Hacc).
Defined.

Lemma format_change_recompiles_once_witness :
  let w := fresh_world keypad_lock in
  let w1 := (@code_format_cmp literal_regex w).2 in
  let good := @code_format_cmp literal_regex
                (with_code_format (Some "9999") w1) in
  let bad := @code_format_cmp literal_regex
               (with_code_format (Some "(") w1) in
  (@code_format_cmp literal_regex w).1 = Ok (Some (mkPattern "1234")) /\
  @re_valid literal_regex "9999" = true /\
  @re_valid literal_regex "(" = false /\
  (good.1 = Ok (Some (mkPattern "9999")) /\
   _LockEntity__code_format_cmp (self good.2) = Some (mkPattern "9999")) /\
  (bad.1 = Raise ReError /\
   _LockEntity__code_format_cmp (self bad.2) = Some (mkPattern "1234")).
Proof.
  intros w w1 good bad.
  assert (Hfirst : (@code_format_cmp literal_regex w).1
                   = Ok (Some (mkPattern "1234"))) by reflexivity.
  split; [exact Hfirst|]. split; [reflexivity|]. split; [reflexivity|].
  split.
  - apply (proj1 (proj2 (@format_change_recompiles_once literal_regex w
                           "9999" _ Hfirst ltac:(discriminate)))).
    reflexivity.
  - apply (proj2 (proj2 (@format_change_recompiles_once literal_regex w
                           "(" _ Hfirst ltac:(discriminate)))).
    reflexivity.
Defined.

Lemma clearing_format_drops_cache_on_read_witness :
  let w := fresh_world keypad_lock in
  let w1 := (@code_format_cmp literal_regex w).2 in
  let cleared := with_code_format None w1 in
  (@code_format_cmp literal_regex w).1 = Ok (Some (mkPattern "1234")) /\
  re_compile_calls
    (@code_format_cmp literal_regex
       (with_code_format (Some "1234") cleared)).2
    = re_compile_calls w1 /\
  re_compile_calls
    (@code_format_cmp literal_regex
       (with_code_format (Some "1234")
          (@code_format_cmp literal_regex cleared).2)).2
    = "1234" :: re_compile_calls w1.
Proof.
  intros w w1 cleared.
  assert (Hfirst : (@code_format_cmp literal_regex w).1
                   = Ok (Some (mkPattern "1234"))) by reflexivity.
  split; [exact Hfirst|].
  exact (@clearing_format_drops_cache_on_read literal_regex w "1234" Hfirst).
Defined.

Lemma matching_candidate_accepted_witness :
  let w := fresh_world keypad_lock in
  let entry := entry_with_default_code "1234" in
  let lock_options : gmap string string := {[ CONF_DEFAULT_CODE := "1234" ]} in
  let after := @_async_read_entity_options literal_regex w in
  (_lock_option_default_code (self w) = "" /\
   registry_entry (self w) = Some entry /\
   options entry !! DOMAIN = Some lock_options /\
   lock_options !! CONF_DEFAULT_CODE = Some "1234" /\
   code_format (self w) = Some "1234" /\
   @re_match literal_regex "1234" "1234" = true) /\
  after.1 = Ok tt /\
  _lock_option_default_code (self after.2) = "1234".
Proof.
  intros w entry lock_options after.
  assert (Hopts : options entry !! DOMAIN = Some lock_options)
    by (vm_compute; reflexivity).
  assert (Hc : lock_options !! CONF_DEFAULT_CODE = Some "1234")
    by (vm_compute; reflexivity).
  split.
  { split; [reflexivity|]. split; [reflexivity|]. split; [exact Hopts|].
    split; [exact Hc|]. split; reflexivity. }
  apply (@matching_candidate_accepted literal_regex w entry lock_options
           "1234" "1234" eq_refl Hopts Hc); [discriminate | | ]; reflexivity.
Defined.

Lemma missing_default_code_resets_witness :
  let w := fresh_world unconfigured_lock in
  let entry : RegistryEntry := {| options := ∅ |} in
  _lock_option_default_code (self w) = "4321" /\
  registry_entry (self w) = Some entry /\
  @_async_read_entity_options literal_regex w
    = (Ok tt, with_default_code "" w) /\
  _lock_option_default_code (self (with_default_code "" w)) = "" /\
  re_compile_calls (with_default_code "" w) = re_compile_calls w.
Proof.
  intros w entry. split; [reflexivity|]. split; [reflexivity|].
  apply (@missing_default_code_resets literal_regex w entry eq_refl).
  intros lock_options H. simpl in H. rewrite lookup_empty in H.
  discriminate H.
Defined.

Lemma missing_registry_entry_witness :
  let w := fresh_world optional_code_lock in
  registry_entry (self w) = None /\
  @async_registry_entry_updated literal_regex w = (Raise AssertionError, w) /\
  @async_internal_added_to_hass literal_regex w = (Ok tt, w).
Proof.
  intros w. split; [reflexivity|].
  exact (@missing_registry_entry literal_regex w eq_refl).
Defined.

Lemma accepted_default_code_is_used_witness :
  let w := fresh_world keypad_lock in
  let entry := entry_with_default_code "1234" in
  let lock_options : gmap string string := {[ CONF_DEFAULT_CODE := "1234" ]} in
  let attached := (@_async_read_entity_options literal_regex w).2 in
  default "" (data call_without_code !! ATTR_CODE) = "" /\
  (@_add_default_code literal_regex call_without_code attached).1
    = Ok (<[ATTR_CODE := "1234"]>
            (remove_entity_service_fields call_without_code)).
Proof.
  intros w entry lock_options attached.
  assert (Hopts : options entry !! DOMAIN = Some lock_options)
    by (vm_compute; reflexivity).
  assert (Hc : lock_options !! CONF_DEFAULT_CODE = Some "1234")
    by (vm_compute; reflexivity).
  assert (Hcode : default "" (data call_without_code !! ATTR_CODE) = "")
    by (vm_compute; reflexivity).
  split; [exact Hcode|].
  apply (@accepted_default_code_is_used literal_regex w entry lock_options
           "1234" "1234" call_without_code eq_refl Hopts Hc);
    [discriminate | reflexivity | reflexivity | exact Hcode].
Defined.

Lemma read_entity_options_idempotent_witness :
  let w := fresh_world keypad_lock in
  (@_async_read_entity_options literal_regex w).1 = Ok tt /\
  @_async_read_entity_options literal_regex
    (@_async_read_entity_options literal_regex w).2
    = @_async_read_entity_options literal_regex w.
Proof.
  intros w.
  assert (Hok : (@_async_read_entity_options literal_regex w).1 = Ok tt)
    by (vm_compute; reflexivity).
  split; [exact Hok|].
  exact (@read_entity_options_idempotent literal_regex w Hok).
Defined.

Lemma malformed_format_raises_witness :
  let w := fresh_world broken_lock in
  let resolution :=
    @_add_default_code literal_regex (call_with_code "1234") w in
  (code_format (self w) = Some "(" /\
   @re_valid literal_regex "(" = false /\
   _LockEntity__code_format_cmp (self w) = None) /\
  resolution.1 = Raise ReError /\
  @_async_lock literal_regex base_device (call_with_code "1234") w
    = (Raise ReError, resolution.2) /\
  @_async_unlock literal_regex base_device (call_with_code "1234") w
    = (Raise ReError, resolution.2) /\
  @_async_open literal_regex base_device (call_with_code "1234") w
    = (Raise ReError, resolution.2) /\
  executor_jobs resolution.2 = executor_jobs w /\
  self resolution.2 = self w /\
  re_compile_calls resolution.2 = "(" :: re_compile_calls w /\
  (@code_format_cmp literal_regex resolution.2).1 = Raise ReError.
Proof.
  intros w resolution.
  split; [repeat split|].
  apply (@malformed_format_raises literal_regex base_device
           (call_with_code "1234") w "(" eq_refl eq_refl).
  discriminate.
Defined.
